(** * The constraint subsystem of find-my-way ([lib/constrainer.js])

    A shallow embedding of the [Constrainer] class: the strategy registry
    ([availableStrategies], [usedStrategies]), the constructor that checks
    custom strategies, [addUsedStrategy], [compileFunctions],
    [validateConstraints], [newStoreForConstraint], and the two functions the
    class generates with [new Function]: [deriveConstraints] and
    [mustMatchHandlerMatcher].

    JavaScript objects are association lists in insertion order.  Reading a
    property that is not an own property falls back to [Object.prototype],
    whose members ([toString], [constructor], ...) are functions, so such reads
    are modelled.  The generated functions are kept as data (the list of
    generated statements) together with an evaluator.

    The names spliced into the generated source are classified by how the
    JavaScript parser reads [obj.<name>] ([shape_of_name]).  Plain
    identifiers, names that can never follow [obj.], an identifier followed
    by a line comment ([//]) and dotted paths are modelled.  For any other
    name, and for a custom strategy named [__proto__] (whose assignment
    replaces the prototype of [availableStrategies]), what the code does is
    not determined here: the outcome is [Unknown], which is not an error of
    the code, and no theorem below treats it as one. *)

From Stdlib Require Import String Ascii List Bool ZArith Lia.
Import ListNotations.
Open Scope string_scope.
Open Scope list_scope.

(** ** JavaScript values *)

(** Values a strategy can derive, a constraint can carry, or a property read
    can return.  [JObject] and [JFunction] are opaque objects and functions.
    Numbers are integers here (NaN is not modelled). *)
Inductive jsval : Type :=
| JUndefined
| JNull
| JBool (b : bool)
| JNum (n : Z)
| JStr (s : string)
| JObject
| JFunction.

(** JavaScript truthiness ([if (value)]). *)
Definition truthy (v : jsval) : bool :=
  match v with
  | JUndefined | JNull => false
  | JBool b => b
  | JNum n => negb (Z.eqb n 0)
  | JStr s => negb (String.eqb s "")
  | JObject | JFunction => true
  end.

(** [typeof v === "undefined"]. *)
Definition is_undefined (v : jsval) : bool :=
  match v with JUndefined => true | _ => false end.

(** Errors thrown by the code. *)
Inductive js_error : Type :=
| AssertionError (msg : string)   (* [assert] in the constructor: InvalidStrategy *)
| UnknownStrategy (key : string)  (* [new Error('No strategy registered for constraint key ' + key)] *)
| TypeError                       (* property read on undefined/null, call of a non-function *)
| SyntaxError                     (* the source given to [new Function] does not parse *)
| ValidationError (msg : string). (* thrown by a strategy's own [validate] *)

(** The outcome of an operation: it returns, it throws, or it depends on
    generated source text whose meaning this development does not model
    ([Unknown]: the code may return or throw, nothing is claimed). *)
Inductive result (A : Type) : Type :=
| Ok (a : A)
| Error (e : js_error)
| Unknown.
Arguments Ok {A} a.
Arguments Error {A} e.
Arguments Unknown {A}.

Definition bind {A B : Type} (r : result A) (k : A -> result B) : result B :=
  match r with Ok a => k a | Error e => Error e | Unknown => Unknown end.

Notation "x <- r ;; k" := (bind r (fun x => k))
  (at level 61, r at next level, right associativity).

(** ** Objects as association lists *)

(** The (non-enumerable) members of [Object.prototype]; a read of one of these
    on a plain object that lacks it as an own property finds the inherited
    member. *)
Definition object_prototype_keys : list string :=
  ["constructor"; "__defineGetter__"; "__defineSetter__"; "hasOwnProperty";
   "__lookupGetter__"; "__lookupSetter__"; "isPrototypeOf";
   "propertyIsEnumerable"; "toString"; "valueOf"; "__proto__";
   "toLocaleString"].

Definition is_proto_key (k : string) : bool :=
  existsb (String.eqb k) object_prototype_keys.

Fixpoint own {A : Type} (k : string) (o : list (string * A)) : option A :=
  match o with
  | [] => None
  | (k', v) :: o' => if String.eqb k k' then Some v else own k o'
  end.

(** [o[k] = v] on an own data property: overwrite in place, or append a new
    key at the end of the enumeration order. *)
Fixpoint js_set {A : Type} (o : list (string * A)) (k : string) (v : A)
  : list (string * A) :=
  match o with
  | [] => [(k, v)]
  | (k', v') :: o' =>
      if String.eqb k k' then (k', v) :: o' else (k', v') :: js_set o' k v
  end.

(** A derived-constraints object ([derivedConstraints]). *)
Definition dict := list (string * jsval).

(** [d.k] / [d[k]] on a plain object: own property, else [Object.prototype]
    ([__proto__] is [Object.prototype] itself, the others are functions). *)
Definition js_get (d : dict) (k : string) : jsval :=
  match own k d with
  | Some v => v
  | None =>
      if String.eqb k "__proto__" then JObject
      else if is_proto_key k then JFunction
      else JUndefined
  end.

(** ** Requests and strategies *)

(** A request: only its [headers] object is read by the constraint code. *)
Record request : Type := mkRequest { headers : list (string * jsval) }.

Definition header (req : request) (h : string) : jsval :=
  match own h (headers req) with Some v => v | None => JUndefined end.

(** Storage factories are opaque: [SemVerStore] (package [semver-store]), the
    host strategy's store, and user-supplied factories. *)
Inductive storage_fn : Type :=
| SemVerStore
| HostStore
| UserStore (tag : nat).

(** A property of a user object: absent, holding a (non-function) value, or
    holding a function. *)
Inductive prop (F : Type) : Type :=
| PAbsent
| PValue (v : jsval)
| PFun (f : F).
Arguments PAbsent {F}.
Arguments PValue {F} v.
Arguments PFun {F} f.

Definition prop_truthy {F : Type} (p : prop F) : bool :=
  match p with PAbsent => false | PValue v => truthy v | PFun _ => true end.

Definition deriver_fn := request -> jsval -> jsval.
Definition validator_fn := jsval -> result unit.

(** A strategy object as stored in [availableStrategies]. *)
Record strategy : Type := mkStrategy {
  name : string;
  storage : storage_fn;
  deriveConstraint : deriver_fn;
  validate : prop validator_fn;
  mustMatchWhenDerived : jsval;
  isCustom : bool
}.

(** [lib/strategies/accept-version.js]: no [mustMatchWhenDerived] and no
    [validate] property. *)
Definition acceptVersionStrategy : strategy := {|
  name := "version";
  storage := SemVerStore;
  deriveConstraint := fun req _ => header req "accept-version";
  validate := PAbsent;
  mustMatchWhenDerived := JUndefined;
  isCustom := false
|}.

(** Modelled from the spec: [lib/strategies/accept-host.js] is not part of the
    sources.  The spec describes the built-in host strategy as named [host],
    storing by exact string match, deriving the [host] header, and not flagged
    [mustMatchWhenDerived]. *)
Definition acceptHostStrategy : strategy := {|
  name := "host";
  storage := HostStore;
  deriveConstraint := fun req _ => header req "host";
  validate := PAbsent;
  mustMatchWhenDerived := JBool false;
  isCustom := false
|}.

Definition strategies := list (string * strategy).

(** [this.availableStrategies[k]]: an own strategy, an inherited member of
    [Object.prototype] (truthy, with none of the strategy properties), or
    [undefined]. *)
Inductive lookup : Type :=
| LOwn (s : strategy)
| LInherited
| LMissing.

Definition avail_get (avail : strategies) (k : string) : lookup :=
  match own k avail with
  | Some s => LOwn s
  | None => if is_proto_key k then LInherited else LMissing
  end.

(** ** Names spliced into generated source *)

Definition is_digit (c : ascii) : bool :=
  let n := nat_of_ascii c in Nat.leb 48 n && Nat.leb n 57.
Definition is_ident_start (c : ascii) : bool :=
  let n := nat_of_ascii c in
  (Nat.leb 65 n && Nat.leb n 90) || (Nat.leb 97 n && Nat.leb n 122)
  || Nat.eqb n 95 || Nat.eqb n 36.
Definition is_ident_part (c : ascii) : bool := is_ident_start c || is_digit c.
Definition is_dot (c : ascii) : bool := Nat.eqb (nat_of_ascii c) 46.
Definition is_slash (c : ascii) : bool := Nat.eqb (nat_of_ascii c) 47.

Fixpoint all_ident_part (s : string) : bool :=
  match s with
  | EmptyString => true
  | String c s' => is_ident_part c && all_ident_part s'
  end.

(** A plain ASCII identifier. *)
Definition is_ident (s : string) : bool :=
  match s with
  | EmptyString => false
  | String c s' => is_ident_start c && all_ident_part s'
  end.

(** Identifier characters and dots only. *)
Fixpoint all_path_chars (s : string) : bool :=
  match s with
  | EmptyString => true
  | String c s' => (is_ident_part c || is_dot c) && all_path_chars s'
  end.

(** The segments between the dots. *)
Fixpoint split_dots (s : string) : list string :=
  match s with
  | EmptyString => [""]
  | String c s' =>
      if is_dot c then "" :: split_dots s'
      else match split_dots s' with
           | [] => [String c ""]
           | w :: ws => String c w :: ws
           end
  end.

(** The text before the first [//] and the text after it. *)
Fixpoint comment_split (s : string) : option (string * string) :=
  match s with
  | EmptyString => None
  | String c s' =>
      match s' with
      | String c' rest =>
          if is_slash c && is_slash c' then Some ("", rest)
          else match comment_split s' with
               | Some (p, r) => Some (String c p, r)
               | None => None
               end
      | EmptyString => None
      end
  end.

(** Text that a line comment swallows up to the end of its line: ASCII, with
    no line feed or carriage return. *)
Fixpoint comment_text_ok (s : string) : bool :=
  match s with
  | EmptyString => true
  | String c s' =>
      let n := nat_of_ascii c in
      Nat.ltb n 128 && negb (Nat.eqb n 10) && negb (Nat.eqb n 13)
      && comment_text_ok s'
  end.

(** How the parser reads the generated [obj.<name>]:
    - [ShPlain]: a plain ASCII identifier other than [__proto__]: a property
      access of [name];
    - [ShBad]: the empty name, a name starting with a digit or a dot, or a
      dotted name with an empty segment or a segment starting with a digit:
      the token after [obj.] is then a number or a punctuator, which never
      parses, whatever follows;
    - [ShComment p]: an identifier [p] followed by [//] and the rest of the
      line: [obj.p], the rest of the generated line is a comment;
    - [ShPath h]: identifiers joined by dots, the first one [h]: a chain of
      property accesses;
    - [ShOther]: any other name (or [__proto__]): not modelled. *)
Inductive shape : Type :=
| ShPlain
| ShBad
| ShComment (p : string)
| ShPath (head : string)
| ShOther.

Definition shape_of_name (s : string) : shape :=
  match s with
  | EmptyString => ShBad
  | String c _ =>
      if is_digit c then ShBad
      else if all_path_chars s then
        match split_dots s with
        | [w] => if String.eqb w "__proto__" then ShOther else ShPlain
        | h :: _ :: _ => if forallb is_ident (split_dots s) then ShPath h else ShBad
        | [] => ShBad
        end
      else
        match comment_split s with
        | Some (p, rest) =>
            if is_ident p && comment_text_ok rest then ShComment p else ShOther
        | None => ShOther
        end
  end.

(** Whether generated source parses: yes, no, or not modelled. *)
Inductive syn : Type := SynOk | SynError | SynUnknown.

(** A name spliced into [value = this.availableStrategies.<name>.deriveConstraint(req, ctx)]
    or [derivedConstraints.<name> = value]: the comment form ends the line
    after [obj.p], which is a complete statement there. *)
Definition derive_syn (sh : shape) : syn :=
  match sh with
  | ShPlain | ShComment _ | ShPath _ => SynOk
  | ShBad => SynError
  | ShOther => SynUnknown
  end.

(** A name spliced into [if (typeof derivedConstraints.<name> !== "undefined") return null]:
    the comment form leaves [if (typeof derivedConstraints.p] unclosed, and
    the next generated line ([if ...] or [return ...]) cannot continue it; a
    path parses, but what [typeof d.a.b] reads is not modelled. *)
Definition check_syn (sh : shape) : syn :=
  match sh with
  | ShPlain => SynOk
  | ShBad | ShComment _ => SynError
  | ShPath _ | ShOther => SynUnknown
  end.

(** Several pieces of one generated source: anything unmodelled makes the
    whole unmodelled (it could open a comment or a string), otherwise any
    piece that cannot parse makes it a [SyntaxError]. *)
Definition syn_join (a b : syn) : syn :=
  match a, b with
  | SynUnknown, _ | _, SynUnknown => SynUnknown
  | SynError, _ | _, SynError => SynError
  | SynOk, SynOk => SynOk
  end.

Definition syn_all (l : list syn) : syn := fold_right syn_join SynOk l.

(** [new Function(...)] on the assembled source. *)
Definition parse {A : Type} (s : syn) (a : A) : result A :=
  match s with
  | SynOk => Ok a
  | SynError => Error SyntaxError
  | SynUnknown => Unknown
  end.

(** ** [_buildDeriveConstraints] *)

(** The expression [defaultConstraints[key]] spliced after [value = ]. *)
Inductive inline_src : Type :=
| SrcAcceptVersion   (* req.headers['accept-version'] *)
| SrcHost            (* req.headers.host *)
| SrcUndefined.      (* the text [undefined] *)

(** One generated block of the derivation loop. *)
Inductive derive_line : Type :=
| LCustom (key : string) (s : strategy)
    (* value = this.availableStrategies.<key>.deriveConstraint(req, ctx)
       if (value) { hasConstraint = true; derivedConstraints.<s.name> = value } *)
| LInline (src : inline_src) (nm : string)
    (* value = <defaultConstraints[key]>
       if (value) { hasConstraint = true; derivedConstraints.<nm> = value } *)
| LRead (v : jsval)
    (* value = this.availableStrategies.<p>//...   (v: what that read gives)
       if (value) { hasConstraint = true; derivedConstraints.<q>//... }
       the assignment is commented out: nothing is written *)
| LThrow
    (* value = this.availableStrategies.<h>.<...>: [h] reads undefined, and
       the next property read throws a TypeError *)
| LUnknown
    (* a block whose behaviour is not modelled *)
| LGarbage.
    (* a block whose spliced text cannot parse *)

(** [defaultConstraints[key]] for the object literal
    [{ version: ..., host: ... }]: the two header reads, the text of an
    inherited [Object.prototype] member ([function toString() { [native code] }]
    or [[object Object]], which cannot parse after [value = ]), or
    [undefined]. *)
Definition defaultConstraints (key : string) : syn * inline_src :=
  if String.eqb key "version" then (SynOk, SrcAcceptVersion)
  else if String.eqb key "host" then (SynOk, SrcHost)
  else if is_proto_key key then (SynError, SrcUndefined)
  else (SynOk, SrcUndefined).

(** [this.availableStrategies.p] as a value: a strategy object, an
    [Object.prototype] member, or [undefined]. *)
Definition read_value (avail : strategies) (p : string) : jsval :=
  match avail_get avail p with
  | LOwn _ => JObject
  | LInherited => if String.eqb p "__proto__" then JObject else JFunction
  | LMissing => JUndefined
  end.

(** The block for a custom strategy [s] found under [key]: [key] is spliced
    into the read, [s.name] into the assignment (the constructor stores a
    custom strategy under its own name, so both are the same text). *)
Definition custom_line (avail : strategies) (key : string) (s : strategy)
  : syn * derive_line :=
  (syn_join (derive_syn (shape_of_name key)) (derive_syn (shape_of_name (name s))),
   match shape_of_name key, shape_of_name (name s) with
   | ShPlain, ShPlain => LCustom key s
   | ShComment p, ShComment _ => LRead (read_value avail p)
   | ShPath h, _ =>
       match avail_get avail h with LMissing => LThrow | _ => LUnknown end
   | _, _ => LUnknown
   end).

(** The body of [for (const key of this.usedStrategies)] for one key. *)
Definition derive_line_of (avail : strategies) (key : string)
  : result (syn * derive_line) :=
  match avail_get avail key with
  | LMissing => Error TypeError            (* strategy.isCustom on undefined *)
  | LInherited => Ok (SynError, LGarbage)  (* not custom: spliced member text *)
  | LOwn s =>
      if isCustom s then Ok (custom_line avail key s)
      else
        let '(sy, src) := defaultConstraints key in
        Ok (syn_join sy (derive_syn (shape_of_name (name s))),
            match shape_of_name (name s) with
            | ShPlain => LInline src (name s)
            | _ => LUnknown
            end)
  end.

Fixpoint derive_lines (avail : strategies) (used : list string)
  : result (list (syn * derive_line)) :=
  match used with
  | [] => Ok []
  | key :: used' =>
      l <- derive_line_of avail key ;;
      ls <- derive_lines avail used' ;;
      Ok (l :: ls)
  end.

(** The compiled deriver: [None] is the program [return null]; [Some ls] is
    the loop body [ls] followed by
    [return hasConstraint ? derivedConstraints : null]. *)
Definition derive_prog := option (list derive_line).

(** A deriver this development does not describe. *)
Definition unknown_deriver : derive_prog := Some [LUnknown].

Definition _buildDeriveConstraints (avail : strategies) (used : list string)
  : result derive_prog :=
  match used with
  | [] => Ok None
  | _ =>
      ls <- derive_lines avail used ;;
      parse (syn_all (map fst ls)) (Some (map snd ls))
  end.

(** Running the generated deriver.  [this.availableStrategies] is never
    written after construction, so the strategy the generated code reads at
    each call is the one found when it was built. *)
Definition line_value (l : derive_line) (req : request) (ctx : jsval) : jsval :=
  match l with
  | LCustom _ s => deriveConstraint s req ctx
  | LInline SrcAcceptVersion _ => header req "accept-version"
  | LInline SrcHost _ => header req "host"
  | LInline SrcUndefined _ => JUndefined
  | LRead v => v
  | LThrow | LUnknown | LGarbage => JUndefined   (* never evaluated *)
  end.

(** The property [derivedConstraints.<nm> = value] writes, if any. *)
Definition line_sink (l : derive_line) : option string :=
  match l with
  | LCustom _ s => Some (name s)
  | LInline _ nm => Some nm
  | LRead _ | LThrow | LUnknown | LGarbage => None
  end.

Fixpoint run_lines (ls : list derive_line) (req : request) (ctx : jsval)
  (derivedConstraints : dict) (hasConstraint : bool) : result (dict * bool) :=
  match ls with
  | [] => Ok (derivedConstraints, hasConstraint)
  | LThrow :: _ => Error TypeError
  | LUnknown :: _ => Unknown
  | l :: ls' =>
      let value := line_value l req ctx in
      if truthy value
      then
        let dc := match line_sink l with
                  | Some nm => js_set derivedConstraints nm value
                  | None => derivedConstraints
                  end in
        run_lines ls' req ctx dc true
      else run_lines ls' req ctx derivedConstraints hasConstraint
  end.

(** [deriveConstraints(req, ctx)]: [None] is [null]. *)
Definition run_deriveConstraints (p : derive_prog) (req : request) (ctx : jsval)
  : result (option dict) :=
  match p with
  | None => Ok None
  | Some ls =>
      r <- run_lines ls req ctx [] false ;;
      let '(derivedConstraints, hasConstraint) := r in
      Ok (if hasConstraint then Some derivedConstraints else None)
  end.

(** ** [_buildMustMatchHandlerMatcher] *)

(** [for (const key in this.availableStrategies)]: own keys, keeping those whose
    strategy has a truthy [mustMatchWhenDerived].  (For-in lists integer-like
    keys first; such names start with a digit and make the source fail to
    parse, so the order of the checks is not observable.) *)
Fixpoint matcher_keys (avail : strategies) : list string :=
  match avail with
  | [] => []
  | (key, s) :: avail' =>
      if truthy (mustMatchWhenDerived s) then key :: matcher_keys avail'
      else matcher_keys avail'
  end.

(** The compiled matcher is its list of checks
    [if (typeof derivedConstraints.<key> !== "undefined") return null]. *)
Definition _buildMustMatchHandlerMatcher (avail : strategies) : result (list string) :=
  let keys := matcher_keys avail in
  parse (syn_all (map (fun k => check_syn (shape_of_name k)) keys)) keys.

(** What the matcher returns: [null], or [this.handlers[0]] (a handler, or
    [undefined] on an empty list). *)
Inductive returned (H : Type) : Type :=
| RetNull
| RetHandler (h : H)
| RetUndefined.
Arguments RetNull {H}.
Arguments RetHandler {H} h.
Arguments RetUndefined {H}.

Definition first_handler {H : Type} (handlers : list H) : returned H :=
  match handlers with [] => RetUndefined | h :: _ => RetHandler h end.

(** Running the matcher on a node whose [handlers] are given, with
    [derivedConstraints] an object ([Some]) or [null] ([None]). *)
Fixpoint run_mustMatchHandlerMatcher {H : Type} (keys : list string)
  (derivedConstraints : option dict) (handlers : list H) : result (returned H) :=
  match keys with
  | [] => Ok (first_handler handlers)
  | key :: keys' =>
      match derivedConstraints with
      | None => Error TypeError
      | Some d =>
          if is_undefined (js_get d key)
          then run_mustMatchHandlerMatcher keys' derivedConstraints handlers
          else Ok RetNull
      end
  end.

(** ** The [Constrainer] object *)

(** [compilations] counts the calls of [compileFunctions]; the other fields are
    the object's own fields. *)
Record constrainer : Type := mkConstrainer {
  availableStrategies : strategies;
  usedStrategies : list string;
  deriveConstraints : derive_prog;
  mustMatchHandlerMatcher : list string;
  compilations : nat
}.

Definition set_usedStrategies (c : constrainer) (u : list string) : constrainer :=
  mkConstrainer (availableStrategies c) u (deriveConstraints c)
    (mustMatchHandlerMatcher c) (compilations c).

Definition set_deriveConstraints (c : constrainer) (d : derive_prog) : constrainer :=
  mkConstrainer (availableStrategies c) (usedStrategies c) d
    (mustMatchHandlerMatcher c) (compilations c).

Definition set_mustMatchHandlerMatcher (c : constrainer) (m : list string)
  : constrainer :=
  mkConstrainer (availableStrategies c) (usedStrategies c) (deriveConstraints c)
    m (compilations c).

Definition count_compilation (c : constrainer) : constrainer :=
  mkConstrainer (availableStrategies c) (usedStrategies c) (deriveConstraints c)
    (mustMatchHandlerMatcher c) (S (compilations c)).

(** [compileFunctions()]: the deriver is assigned before the matcher is built,
    so a failure of the matcher leaves the new deriver in place.  When the
    deriver's source is not modelled, [new Function] may throw (the old
    deriver stays) or install a function not described here: the deriver
    becomes [unknown_deriver].  The matcher depends on [availableStrategies]
    only, so rebuilding it or not gives the same matcher on an object whose
    matcher was built from its registry, as every constructed object's is;
    it is kept. *)
Definition compileFunctions (c0 : constrainer) : constrainer * result unit :=
  let c := count_compilation c0 in
  match _buildDeriveConstraints (availableStrategies c) (usedStrategies c) with
  | Error e => (c, Error e)
  | Unknown => (set_deriveConstraints c unknown_deriver, Unknown)
  | Ok d =>
      let c1 := set_deriveConstraints c d in
      match _buildMustMatchHandlerMatcher (availableStrategies c1) with
      | Error e => (c1, Error e)
      | Unknown => (c1, Unknown)
      | Ok m => (set_mustMatchHandlerMatcher c1 m, Ok tt)
      end
  end.

(** [addUsedStrategy(strategyName)]: the name is pushed before the functions
    are recompiled, so it stays in [usedStrategies] when recompilation throws. *)
Definition addUsedStrategy (c : constrainer) (strategyName : string)
  : constrainer * result unit :=
  if existsb (String.eqb strategyName) (usedStrategies c) then (c, Ok tt)
  else compileFunctions (set_usedStrategies c (usedStrategies c ++ [strategyName])).

(** [newStoreForConstraint(constraint)]: the fresh store is identified by the
    factory that makes it. *)
Definition newStoreForConstraint (c : constrainer) (constraint : string)
  : result storage_fn :=
  match avail_get (availableStrategies c) constraint with
  | LMissing => Error (UnknownStrategy constraint)
  | LInherited => Error TypeError   (* strategy.storage is not a function *)
  | LOwn s => Ok (storage s)
  end.

(** [validateConstraints(constraints)] with [constraints] in for-in order. *)
Definition validate_entry (avail : strategies) (key : string) (value : jsval)
  : result unit :=
  match avail_get avail key with
  | LMissing => Error (UnknownStrategy key)
  | LInherited => Ok tt   (* an Object.prototype member has no [validate] *)
  | LOwn s =>
      match validate s with
      | PAbsent => Ok tt
      | PValue v => if truthy v then Error TypeError else Ok tt
      | PFun f => f value
      end
  end.

Fixpoint validate_entries (avail : strategies) (constraints : list (string * jsval))
  : result unit :=
  match constraints with
  | [] => Ok tt
  | (key, value) :: rest =>
      _ <- validate_entry avail key value ;;
      validate_entries avail rest
  end.

Definition validateConstraints (c : constrainer) (constraints : list (string * jsval))
  : result unit :=
  validate_entries (availableStrategies c) constraints.

(** ** The constructor *)

(** A user-supplied custom strategy object: a plain object with these
    properties ([cs_mustMatchWhenDerived = JUndefined] when it has none). *)
Record custom_strategy : Type := mkCustomStrategy {
  cs_name : jsval;
  cs_storage : prop storage_fn;
  cs_deriveConstraint : prop deriver_fn;
  cs_validate : prop validator_fn;
  cs_mustMatchWhenDerived : jsval
}.

(** The three [assert]s, then [strategy.isCustom = true]. *)
Definition check_custom_strategy (cs : custom_strategy) : result strategy :=
  match cs_name cs with
  | JStr n =>
      if String.eqb n "" then Error (AssertionError "strategy.name is required.")
      else
        match cs_storage cs with
        | PFun st =>
            match cs_deriveConstraint cs with
            | PFun d =>
                Ok {| name := n; storage := st; deriveConstraint := d;
                      validate := cs_validate cs;
                      mustMatchWhenDerived := cs_mustMatchWhenDerived cs;
                      isCustom := true |}
            | _ => Error (AssertionError "strategy.deriveConstraint function is required.")
            end
        | _ => Error (AssertionError "strategy.storage function is required.")
        end
  | _ => Error (AssertionError "strategy.name is required.")
  end.

(** The loop over [Object.keys(customStrategies)].  Assigning a strategy named
    [__proto__] makes it the prototype of [availableStrategies]; the loop goes
    on (a later strategy can still fail an [assert]), but every later read of
    [availableStrategies] may then find that strategy's properties, which is
    not modelled: the outcome is [Unknown] unless an [assert] fails. *)
Fixpoint add_custom_strategies (avail : strategies)
  (customStrategies : list (string * custom_strategy)) : result strategies :=
  match customStrategies with
  | [] => Ok avail
  | (_, cs) :: rest =>
      s <- check_custom_strategy cs ;;
      if String.eqb (name s) "__proto__"
      then match add_custom_strategies avail rest with
           | Error e => Error e
           | _ => Unknown
           end
      else add_custom_strategies (js_set avail (name s) s) rest
  end.

Definition default_strategies : strategies :=
  [("version", acceptVersionStrategy); ("host", acceptHostStrategy)].

(** [new Constrainer(customStrategies)] ([undefined] and [{}] behave alike and
    are both the empty list).  Before [compileFunctions] the two compiled
    fields do not exist yet; they are given placeholder values that are
    overwritten or discarded. *)
Definition new_Constrainer (customStrategies : list (string * custom_strategy))
  : result constrainer :=
  avail <- add_custom_strategies default_strategies customStrategies ;;
  match compileFunctions (mkConstrainer avail [] None [] 0) with
  | (c, Ok _) => Ok c
  | (_, Error e) => Error e
  | (_, Unknown) => Unknown
  end.

(** Every operation of the class, as a step on the object's state. *)
Inductive op : Type :=
| OpAddUsedStrategy (strategyName : string)
| OpCompileFunctions
| OpNewStoreForConstraint (constraint : string)
| OpValidateConstraints (constraints : list (string * jsval))
| OpDeriveConstraints (req : request) (ctx : jsval)
| OpMustMatchHandlerMatcher (derivedConstraints : option dict) (handlers : list nat).

Definition step (c : constrainer) (o : op) : constrainer :=
  match o with
  | OpAddUsedStrategy k => fst (addUsedStrategy c k)
  | OpCompileFunctions => fst (compileFunctions c)
  | OpNewStoreForConstraint _ | OpValidateConstraints _
  | OpDeriveConstraints _ _ | OpMustMatchHandlerMatcher _ _ => c
  end.

Fixpoint run_ops (c : constrainer) (ops : list op) : constrainer :=
  match ops with
  | [] => c
  | o :: ops' => run_ops (step c o) ops'
  end.

(** ** The derivation as the spec words it *)

(** "For each used strategy in registration order, invoke its [deriveValue];
    if it yields a value, record it under that strategy's name; return none if
    no value was found."  A value is recorded when it is truthy, as the code's
    [if (value)] does. *)
Definition spec_entry (avail : strategies) (req : request) (ctx : jsval) (key : string)
  : dict :=
  match own key avail with
  | Some s =>
      let v := deriveConstraint s req ctx in
      if truthy v then [(name s, v)] else []
  | None => []
  end.

Definition spec_entries (avail : strategies) (used : list string) (req : request)
  (ctx : jsval) : dict :=
  flat_map (spec_entry avail req ctx) used.

Definition derive_spec (avail : strategies) (used : list string) (req : request)
  (ctx : jsval) : option dict :=
  match spec_entries avail used req ctx with
  | [] => None
  | es => Some es
  end.

(** The shape of [availableStrategies] after construction: every strategy is
    stored under its own name, and the only non-custom ones are the two
    built-ins. *)
Definition entry_ok (e : string * strategy) : Prop :=
  name (snd e) = fst e /\
  (isCustom (snd e) = false ->
   snd e = acceptVersionStrategy \/ snd e = acceptHostStrategy).

Definition avail_ok (avail : strategies) : Prop := Forall entry_ok avail.

(** A used name spliced as a plain identifier. *)
Definition plain_name (k : string) : Prop := shape_of_name k = ShPlain.

(** The states a [Constrainer] object can be in: a constructed object, and
    whatever any operation makes of a state it can be in. *)
Inductive reachable : constrainer -> Prop :=
| reach_new customs c : new_Constrainer customs = Ok c -> reachable c
| reach_step c o : reachable c -> reachable (step c o).

(** ** Basic lemmas *)

Lemma own_In {A : Type} (k : string) (v : A) (l : list (string * A)) :
  own k l = Some v -> In (k, v) l.
Proof.
  induction l as [|[k' v'] l IH]; simpl; [discriminate|].
  destruct (String.eqb_spec k k') as [->|_]; intro H.
  - inversion H; subst; left; reflexivity.
  - right; exact (IH H).
Qed.

Lemma js_set_fresh {A : Type} (l : list (string * A)) (k : string) (v : A) :
  own k l = None -> js_set l k v = l ++ [(k, v)].
Proof.
  induction l as [|[k' v'] l IH]; simpl; [reflexivity|].
  destruct (String.eqb k k'); [discriminate|].
  intro H; rewrite (IH H); reflexivity.
Qed.

Lemma own_app {A : Type} (k : string) (l1 l2 : list (string * A)) :
  own k (l1 ++ l2) = match own k l1 with Some v => Some v | None => own k l2 end.
Proof.
  induction l1 as [|[k' v'] l1 IH]; simpl; [reflexivity|].
  destruct (String.eqb k k'); [reflexivity|exact IH].
Qed.

Lemma js_set_Forall {A : Type} (P : string * A -> Prop) (l : list (string * A))
  (k : string) (v : A) :
  Forall P l -> P (k, v) -> Forall P (js_set l k v).
Proof.
  induction l as [|[k' v'] l IH]; simpl; intros Hl Hkv.
  - constructor; [exact Hkv | constructor].
  - inversion Hl; subst.
    destruct (String.eqb_spec k k') as [<-|_].
    + constructor; assumption.
    + constructor; [assumption | apply IH; assumption].
Qed.

Lemma js_set_In {A : Type} (l : list (string * A)) (k : string) (v : A) e :
  In e (js_set l k v) -> In e l \/ e = (k, v).
Proof.
  induction l as [|[k' v'] l IH]; simpl.
  - intros [H|[]]; right; symmetry; exact H.
  - destruct (String.eqb_spec k k') as [<-|_]; simpl.
    + intros [H|H]; [right; symmetry; exact H | left; right; exact H].
    + intros [H|H]; [left; left; exact H|].
      destruct (IH H); [left; right | right]; assumption.
Qed.

Lemma js_set_keys_In {A : Type} (l : list (string * A)) k v x :
  In x (map fst (js_set l k v)) -> In x (map fst l) \/ x = k.
Proof.
  intro H; apply in_map_iff in H as ([x' v'] & <- & Hin).
  destruct (js_set_In _ _ _ _ Hin) as [H|H].
  - left; apply in_map_iff; exists (x', v'); auto.
  - right; inversion H; reflexivity.
Qed.

Lemma js_set_NoDup_keys {A : Type} (l : list (string * A)) k v :
  NoDup (map fst l) -> NoDup (map fst (js_set l k v)).
Proof.
  induction l as [|[k0 v0] l IH]; simpl; intro Hnd.
  - constructor; [intros []|constructor].
  - inversion Hnd as [|? ? Hnot Hnd']; subst.
    destruct (String.eqb_spec k k0) as [<-|Hne]; simpl; [constructor; assumption|].
    constructor; [|exact (IH Hnd')].
    intro Hin; destruct (js_set_keys_In _ _ _ _ Hin) as [H|H]; [contradiction|].
    subst; contradiction.
Qed.

Lemma NoDup_snoc {A : Type} (l : list A) x :
  NoDup l -> ~ In x l -> NoDup (l ++ [x]).
Proof.
  induction l as [|a l IH]; simpl; intros Hnd Hx; [constructor; [intros []|constructor]|].
  inversion Hnd as [|? ? Ha Hnd']; subst.
  constructor; [|apply IH; auto].
  rewrite in_app_iff; intros [H|[H|[]]]; [contradiction|].
  subst; apply Hx; left; reflexivity.
Qed.

Lemma avail_ok_own avail k s :
  avail_ok avail -> own k avail = Some s ->
  name s = k /\
  (isCustom s = false -> s = acceptVersionStrategy \/ s = acceptHostStrategy).
Proof.
  intros Hok Hown.
  apply own_In in Hown.
  exact (proj1 (Forall_forall _ _) Hok _ Hown).
Qed.

Lemma syn_join_ok a b : syn_join a b = SynOk <-> a = SynOk /\ b = SynOk.
Proof. destruct a, b; simpl; intuition congruence. Qed.

Lemma parse_ok {A : Type} (s : syn) (a b : A) : parse s a = Ok b -> s = SynOk /\ a = b.
Proof. destruct s; simpl; intro H; inversion H; auto. Qed.

Lemma default_avail_ok : avail_ok default_strategies.
Proof.
  repeat constructor; simpl; auto; discriminate.
Qed.

Lemma default_keys_NoDup : NoDup (map fst default_strategies).
Proof.
  constructor; [simpl; intuition discriminate|].
  constructor; [intros []|constructor].
Qed.

(** The two built-in strategies' names are plain identifiers. *)
Lemma builtin_names_plain s :
  s = acceptVersionStrategy \/ s = acceptHostStrategy -> plain_name (name s).
Proof. intros [->| ->]; reflexivity. Qed.

(** ** The constructor *)

Lemma check_custom_strategy_ok cs s :
  check_custom_strategy cs = Ok s -> isCustom s = true /\ cs_name cs = JStr (name s).
Proof.
  unfold check_custom_strategy.
  destruct (cs_name cs); try discriminate.
  destruct (String.eqb s0 ""); try discriminate.
  destruct (cs_storage cs); try discriminate.
  destruct (cs_deriveConstraint cs); try discriminate.
  intro H; inversion H; subst; simpl; auto.
Qed.

Lemma add_custom_strategies_ok avail customs a :
  avail_ok avail -> add_custom_strategies avail customs = Ok a -> avail_ok a.
Proof.
  revert avail; induction customs as [|[k cs] customs IH]; simpl; intros avail Hok H.
  - inversion H; subst; exact Hok.
  - destruct (check_custom_strategy cs) as [s|e|] eqn:Hc; simpl in H; try discriminate.
    destruct (String.eqb (name s) "__proto__").
    + destruct (add_custom_strategies avail customs); discriminate.
    + apply check_custom_strategy_ok in Hc.
      eapply IH; [apply js_set_Forall; [exact Hok|] | exact H].
      split; simpl; [reflexivity | intro Hf; destruct Hc; congruence].
Qed.

Lemma add_custom_strategies_keys avail customs a :
  NoDup (map fst avail) -> add_custom_strategies avail customs = Ok a ->
  NoDup (map fst a).
Proof.
  revert avail; induction customs as [|[k cs] customs IH]; simpl; intros avail Hnd H.
  - inversion H; subst; exact Hnd.
  - destruct (check_custom_strategy cs) as [s|e|]; simpl in H; try discriminate.
    destruct (String.eqb (name s) "__proto__").
    + destruct (add_custom_strategies avail customs); discriminate.
    + exact (IH _ (js_set_NoDup_keys _ _ _ Hnd) H).
Qed.

Lemma new_Constrainer_inv customs c :
  new_Constrainer customs = Ok c ->
  exists avail m,
    add_custom_strategies default_strategies customs = Ok avail /\
    _buildMustMatchHandlerMatcher avail = Ok m /\
    c = mkConstrainer avail [] None m 1.
Proof.
  unfold new_Constrainer.
  destruct (add_custom_strategies default_strategies customs) as [avail|e|];
    simpl; try discriminate.
  unfold compileFunctions; simpl.
  destruct (_buildMustMatchHandlerMatcher avail) as [m|e|] eqn:Hm; simpl;
    try discriminate.
  intro H; inversion H; subst.
  exists avail, m; repeat split; assumption || reflexivity.
Qed.

Lemma new_Constrainer_avail_ok customs c :
  new_Constrainer customs = Ok c -> avail_ok (availableStrategies c).
Proof.
  intro H; destruct (new_Constrainer_inv _ _ H) as (avail & m & Ha & _ & ->).
  exact (add_custom_strategies_ok _ _ _ default_avail_ok Ha).
Qed.

(** ** Running generated lines *)

(** A line that writes [derivedConstraints.<nm>] runs the generic step. *)
Lemma run_lines_cons l ls req ctx dc has nm :
  line_sink l = Some nm ->
  run_lines (l :: ls) req ctx dc has
  = if truthy (line_value l req ctx)
    then run_lines ls req ctx (js_set dc nm (line_value l req ctx)) true
    else run_lines ls req ctx dc has.
Proof. destruct l; simpl; intro H; inversion H; subst; reflexivity. Qed.

(** Any line but [LThrow] and [LUnknown] runs the generic step. *)
Lemma run_lines_step l ls req ctx dc has :
  l <> LThrow -> l <> LUnknown ->
  run_lines (l :: ls) req ctx dc has
  = if truthy (line_value l req ctx)
    then run_lines ls req ctx
           (match line_sink l with
            | Some nm => js_set dc nm (line_value l req ctx)
            | None => dc
            end) true
    else run_lines ls req ctx dc has.
Proof. destruct l; intros H1 H2; try congruence; reflexivity. Qed.

Lemma line_cases l : l = LThrow \/ l = LUnknown \/ (l <> LThrow /\ l <> LUnknown).
Proof. destruct l; intuition discriminate. Qed.

(** Once a truthy value has been seen, [hasConstraint] is [true] at the end. *)
Lemma run_lines_has ls req ctx : forall dc has d b,
  (has = true \/ exists l, In l ls /\ truthy (line_value l req ctx) = true) ->
  run_lines ls req ctx dc has = Ok (d, b) -> b = true.
Proof.
  induction ls as [|l ls IH]; intros dc has d b Hh Hr.
  - simpl in Hr; inversion Hr; subst.
    destruct Hh as [Hh|(l & [] & _)]; exact Hh.
  - destruct (line_cases l) as [->|[->|[H1 H2]]]; [discriminate|discriminate|].
    rewrite (run_lines_step _ _ _ _ _ _ H1 H2) in Hr.
    destruct (truthy (line_value l req ctx)) eqn:Ht.
    + exact (IH _ _ _ _ (or_introl eq_refl) Hr).
    + refine (IH _ _ _ _ _ Hr).
      destruct Hh as [Hh|(l' & [<-|Hin] & Hl')]; [left; exact Hh| |].
      * rewrite Ht in Hl'; discriminate.
      * right; exists l'; split; assumption.
Qed.

(** A run that reaches an [LThrow] line never returns. *)
Lemma run_lines_throw ls req ctx : forall dc has r,
  In LThrow ls -> run_lines ls req ctx dc has <> Ok r.
Proof.
  induction ls as [|l ls IH]; intros dc has r Hin; [destruct Hin|].
  destruct (line_cases l) as [->|[->|[H1 H2]]]; [discriminate|discriminate|].
  destruct Hin as [Hl|Hin]; [congruence|].
  rewrite (run_lines_step _ _ _ _ _ _ H1 H2).
  destruct (truthy (line_value l req ctx)); apply IH; exact Hin.
Qed.

Lemma run_deriveConstraints_ok ls req ctx r :
  run_deriveConstraints (Some ls) req ctx = Ok r ->
  exists d b, run_lines ls req ctx [] false = Ok (d, b) /\
              r = if b then Some d else None.
Proof.
  simpl; destruct (run_lines ls req ctx [] false) as [[d b]|e|]; simpl; intro H;
    inversion H; subst; eauto.
Qed.

(** ** The generated deriver *)

Lemma derive_line_of_cases avail k :
  (exists x, derive_line_of avail k = Ok x) \/ derive_line_of avail k = Error TypeError.
Proof.
  unfold derive_line_of.
  destruct (avail_get avail k); [destruct (isCustom s); [|destruct (defaultConstraints k)]|..];
    eauto.
Qed.

Lemma derive_lines_missing avail used k :
  In k used -> avail_get avail k = LMissing ->
  derive_lines avail used = Error TypeError.
Proof.
  intros Hin Hm; induction used as [|x used IH]; [destruct Hin|]; simpl.
  destruct Hin as [->|Hin].
  - unfold derive_line_of; rewrite Hm; reflexivity.
  - destruct (derive_line_of_cases avail x) as [[l ->]| ->]; simpl;
      [rewrite (IH Hin)|]; reflexivity.
Qed.

Lemma derive_lines_In avail used ls k :
  derive_lines avail used = Ok ls -> In k used ->
  exists x, derive_line_of avail k = Ok x /\ In x ls.
Proof.
  revert ls; induction used as [|k' used IH]; simpl; intros ls H Hin; [destruct Hin|].
  destruct (derive_line_of avail k') as [x|e|] eqn:Hx; simpl in H; try discriminate.
  destruct (derive_lines avail used) as [ls'|e|] eqn:Hls; simpl in H; try discriminate.
  inversion H; subst.
  destruct Hin as [<-|Hin].
  - exists x; split; [exact Hx|left; reflexivity].
  - destruct (IH _ eq_refl Hin) as (y & Hy & Hiny); exists y; split; [exact Hy|right; exact Hiny].
Qed.

(** A successful build installs the second components of [derive_lines]. *)
Lemma build_ok avail used d :
  used <> [] -> _buildDeriveConstraints avail used = Ok d ->
  exists ls, derive_lines avail used = Ok ls /\ syn_all (map fst ls) = SynOk /\
             d = Some (map snd ls).
Proof.
  intros Hne; unfold _buildDeriveConstraints.
  destruct used as [|k used']; [contradiction|].
  destruct (derive_lines avail (k :: used')) as [ls|e|]; simpl; try discriminate.
  intro H; apply parse_ok in H as [Hs <-]; exists ls; auto.
Qed.

(** The line a registered used key produces. *)
Lemma derive_line_of_own avail k s :
  avail_ok avail -> own k avail = Some s ->
  derive_line_of avail k = Ok (custom_line avail k s) \/
  plain_name k /\ (s = acceptVersionStrategy \/ s = acceptHostStrategy).
Proof.
  intros Hok Hown; destruct (avail_ok_own _ _ _ Hok Hown) as [Hname Hb].
  unfold derive_line_of, avail_get; rewrite Hown.
  destruct (isCustom s) eqn:Hc; [left; reflexivity|right].
  split; [rewrite <- Hname; apply builtin_names_plain|]; exact (Hb eq_refl).
Qed.

(** What a line of a plain-named used key computes. *)
Definition line_ok (avail : strategies) (key : string) (l : derive_line) : Prop :=
  exists s, own key avail = Some s /\ line_sink l = Some key /\
    forall req ctx, line_value l req ctx = deriveConstraint s req ctx.

Lemma derive_line_of_plain avail key l :
  avail_ok avail -> plain_name key -> derive_line_of avail key = Ok (SynOk, l) ->
  line_ok avail key l.
Proof.
  intros Hok Hk H. unfold derive_line_of, avail_get in H.
  destruct (own key avail) as [s|] eqn:Hown.
  - destruct (avail_ok_own _ _ _ Hok Hown) as [Hname Hbuiltin].
    exists s; split; [exact Hown|].
    destruct (isCustom s) eqn:Hc.
    + unfold custom_line in H; rewrite Hname in H; unfold plain_name in Hk; rewrite Hk in H.
      injection H as <-; split; [simpl; rewrite Hname; reflexivity | intros; reflexivity].
    + destruct (Hbuiltin eq_refl) as [->| ->]; simpl in Hname; subst key;
        vm_compute in H; inversion H; subst; split; try reflexivity; intros; reflexivity.
  - destruct (is_proto_key key); inversion H.
Qed.

Lemma derive_lines_Forall2 avail used ls :
  avail_ok avail -> Forall plain_name used -> derive_lines avail used = Ok ls ->
  syn_all (map fst ls) = SynOk ->
  Forall2 (line_ok avail) used (map snd ls).
Proof.
  intros Hok; revert ls; induction used as [|key used IH]; simpl; intros ls Hp H Hs.
  - inversion H; subst; constructor.
  - inversion Hp as [|? ? Hk Hp']; subst.
    destruct (derive_line_of avail key) as [[sy l]|e|] eqn:Hl; simpl in H; try discriminate.
    destruct (derive_lines avail used) as [ls'|e|] eqn:Hls; simpl in H; try discriminate.
    inversion H; subst; simpl in Hs |- *.
    apply syn_join_ok in Hs as [-> Hs].
    constructor; [exact (derive_line_of_plain _ _ _ Hok Hk Hl) | exact (IH _ Hp' eq_refl Hs)].
Qed.

Definition line_name (l : derive_line) : string :=
  match line_sink l with Some nm => nm | None => "" end.

Fixpoint line_entries (ls : list derive_line) (req : request) (ctx : jsval) : dict :=
  match ls with
  | [] => []
  | l :: ls' =>
      let v := line_value l req ctx in
      (if truthy v then [(line_name l, v)] else []) ++ line_entries ls' req ctx
  end.

Definition nonempty {A : Type} (l : list A) : bool :=
  match l with [] => false | _ => true end.

Lemma run_lines_entries ls req ctx dc has :
  Forall (fun l => line_sink l = Some (line_name l)) ls ->
  NoDup (map line_name ls) ->
  (forall l, In l ls -> own (line_name l) dc = None) ->
  run_lines ls req ctx dc has
    = Ok (dc ++ line_entries ls req ctx, has || nonempty (line_entries ls req ctx)).
Proof.
  revert dc has; induction ls as [|l ls IH]; intros dc has Hs Hnd Hfresh.
  - simpl; rewrite app_nil_r, orb_false_r; reflexivity.
  - inversion Hs as [|? ? Hl Hs']; subst.
    inversion Hnd as [|? ? Hnotin Hnd']; subst.
    rewrite (run_lines_cons _ _ _ _ _ _ _ Hl); cbn [line_entries].
    destruct (truthy (line_value l req ctx)).
    + rewrite js_set_fresh by (apply Hfresh; left; reflexivity).
      rewrite IH; [| exact Hs' | exact Hnd' |].
      * simpl; rewrite <- app_assoc, orb_true_r; reflexivity.
      * intros l' Hl'. rewrite own_app, (Hfresh l' (or_intror Hl')); simpl.
        destruct (String.eqb_spec (line_name l') (line_name l)) as [Heq|]; [|reflexivity].
        exfalso; apply Hnotin; rewrite <- Heq; apply in_map; exact Hl'.
    + apply IH; [exact Hs'|exact Hnd'|]. intros l' Hl'; apply Hfresh; right; exact Hl'.
Qed.

Lemma line_ok_name avail key l : line_ok avail key l -> line_name l = key.
Proof. intros (s & _ & Hs & _); unfold line_name; rewrite Hs; reflexivity. Qed.

Lemma line_entries_spec avail used ls req ctx :
  Forall2 (line_ok avail) used ls -> avail_ok avail ->
  line_entries ls req ctx = spec_entries avail used req ctx.
Proof.
  intros H Hok; induction H as [|key l used ls Hl _ IH]; [reflexivity|].
  pose proof (line_ok_name _ _ _ Hl) as Hname.
  destruct Hl as (s & Hown & _ & Hval).
  unfold spec_entries in *; cbn [line_entries flat_map].
  rewrite IH; unfold spec_entry; rewrite Hown, Hval, Hname.
  destruct (avail_ok_own _ _ _ Hok Hown) as [-> _]; reflexivity.
Qed.

Lemma Forall2_line_ok avail used ls :
  Forall2 (line_ok avail) used ls ->
  map line_name ls = used /\ Forall (fun l => line_sink l = Some (line_name l)) ls.
Proof.
  induction 1 as [|key l used ls Hl _ [IH1 IH2]]; [split; constructor|].
  pose proof (line_ok_name _ _ _ Hl) as Hn.
  destruct Hl as (s & _ & Hs & _).
  simpl; rewrite IH1, Hn; split; [reflexivity|].
  constructor; [rewrite Hn; exact Hs | exact IH2].
Qed.

(** The compiled deriver of plain-named used keys computes [derive_spec]. *)
Lemma run_build_spec avail used p req ctx :
  avail_ok avail -> NoDup used -> Forall plain_name used ->
  _buildDeriveConstraints avail used = Ok p ->
  run_deriveConstraints p req ctx = Ok (derive_spec avail used req ctx).
Proof.
  intros Hok Hnd Hp Hb.
  destruct used as [|key used'] eqn:Hu; [inversion Hb; reflexivity|].
  rewrite <- Hu in *.
  assert (Hne : used <> []) by (rewrite Hu; discriminate).
  destruct (build_ok _ _ _ Hne Hb) as (ls & Hls & Hs & ->).
  pose proof (derive_lines_Forall2 _ _ _ Hok Hp Hls Hs) as HF.
  destruct (Forall2_line_ok _ _ _ HF) as [Hnames Hsinks].
  simpl. rewrite run_lines_entries; [| exact Hsinks | rewrite Hnames; exact Hnd |
                                     intros; reflexivity].
  simpl. rewrite (line_entries_spec _ _ _ _ _ HF Hok).
  unfold derive_spec. destruct (spec_entries avail used req ctx); reflexivity.
Qed.

(** ** Registry operations *)

Lemma existsb_eqb_In k l : existsb (String.eqb k) l = true <-> In k l.
Proof.
  rewrite existsb_exists; split.
  - intros (x & Hx & He); apply String.eqb_eq in He; subst; exact Hx.
  - intro H; exists k; split; [exact H | apply String.eqb_refl].
Qed.

Lemma compileFunctions_fields c :
  availableStrategies (fst (compileFunctions c)) = availableStrategies c /\
  usedStrategies (fst (compileFunctions c)) = usedStrategies c /\
  compilations (fst (compileFunctions c)) = S (compilations c).
Proof.
  unfold compileFunctions; simpl.
  destruct (_buildDeriveConstraints (availableStrategies c) (usedStrategies c));
    [destruct (_buildMustMatchHandlerMatcher (availableStrategies c))|..]; auto.
Qed.

Lemma compileFunctions_matcher c :
  _buildMustMatchHandlerMatcher (availableStrategies c) = Ok (mustMatchHandlerMatcher c) ->
  mustMatchHandlerMatcher (fst (compileFunctions c)) = mustMatchHandlerMatcher c.
Proof.
  intro Hm; unfold compileFunctions; simpl.
  destruct (_buildDeriveConstraints (availableStrategies c) (usedStrategies c));
    simpl; try reflexivity.
  rewrite Hm; reflexivity.
Qed.

Lemma addUsedStrategy_present c k :
  In k (usedStrategies c) -> addUsedStrategy c k = (c, Ok tt).
Proof.
  intro H; unfold addUsedStrategy.
  apply existsb_eqb_In in H; rewrite H; reflexivity.
Qed.

Lemma addUsedStrategy_absent c k :
  ~ In k (usedStrategies c) ->
  addUsedStrategy c k = compileFunctions (set_usedStrategies c (usedStrategies c ++ [k])).
Proof.
  intro H; unfold addUsedStrategy.
  destruct (existsb (String.eqb k) (usedStrategies c)) eqn:He; [|reflexivity].
  apply existsb_eqb_In in He; contradiction.
Qed.

Lemma step_appends c o :
  exists l, usedStrategies (step c o) = usedStrategies c ++ l.
Proof.
  destruct o as [k| | | | |]; simpl; try (exists []; rewrite app_nil_r; reflexivity).
  - destruct (in_dec string_dec k (usedStrategies c)) as [Hin|Hnot].
    + rewrite (addUsedStrategy_present _ _ Hin); exists []; rewrite app_nil_r; reflexivity.
    + rewrite (addUsedStrategy_absent _ _ Hnot).
      exists [k]; apply compileFunctions_fields.
  - exists []; rewrite app_nil_r; apply compileFunctions_fields.
Qed.

Lemma reachable_invariants c :
  reachable c ->
  avail_ok (availableStrategies c) /\
  NoDup (map fst (availableStrategies c)) /\
  NoDup (usedStrategies c) /\
  _buildMustMatchHandlerMatcher (availableStrategies c) = Ok (mustMatchHandlerMatcher c).
Proof.
  induction 1 as [customs c Hc|c o _ (Hok & Hkeys & Hnd & Hm)].
  - destruct (new_Constrainer_inv _ _ Hc) as (avail & m & Ha & Hm & ->); simpl.
    split; [exact (add_custom_strategies_ok _ _ _ default_avail_ok Ha)|].
    split; [exact (add_custom_strategies_keys _ _ _ default_keys_NoDup Ha)|].
    split; [constructor|exact Hm].
  - destruct o as [k| | | | |]; simpl; try (repeat split; assumption).
    + destruct (in_dec String.string_dec k (usedStrategies c)) as [Hin|Hnot].
      * rewrite (addUsedStrategy_present _ _ Hin); repeat split; assumption.
      * rewrite (addUsedStrategy_absent _ _ Hnot).
        set (c1 := set_usedStrategies c (usedStrategies c ++ [k])).
        destruct (compileFunctions_fields c1) as (Ha & Hu & _).
        rewrite Ha, Hu, compileFunctions_matcher; simpl;
          [|exact Hm].
        repeat split; try assumption.
        apply NoDup_snoc; assumption.
    + destruct (compileFunctions_fields c) as (Ha & Hu & _).
      rewrite Ha, Hu, compileFunctions_matcher; [|exact Hm].
      repeat split; assumption.
Qed.

(** On a reachable state a registered key that is not a plain identifier
    belongs to a custom strategy, and the line built for it is [custom_line]. *)
Lemma reachable_custom_line c k s :
  reachable c -> own k (availableStrategies c) = Some s -> ~ plain_name k ->
  derive_line_of (availableStrategies c) k = Ok (custom_line (availableStrategies c) k s)
  /\ name s = k.
Proof.
  intros Hr Hown Hnp.
  destruct (reachable_invariants _ Hr) as (Hok & _).
  split; [|exact (proj1 (avail_ok_own _ _ _ Hok Hown))].
  destruct (derive_line_of_own _ _ _ Hok Hown) as [H|[H _]]; [exact H|contradiction].
Qed.

(** ** Concrete inputs *)

Definition c_default : constrainer := mkConstrainer default_strategies [] None [] 1.

Definition p_version : derive_prog := Some [LInline SrcAcceptVersion "version"].

Definition p_version_host : derive_prog :=
  Some [LInline SrcAcceptVersion "version"; LInline SrcHost "host"].

(** [accept-version: 1.2.0] with an empty [host] header. *)
Definition req_v : request :=
  mkRequest [("accept-version", JStr "1.2.0"); ("host", JStr "")].

Ltac nodup_strings :=
  repeat (constructor; [simpl; intuition discriminate|]); constructor.

(** ** Claims *)

(** C1 (code_bug).  With the built-in strategies only, a request whose
    derivation produced [version = '1.x'] still reaches the node's default
    handler: [accept-version.js] carries no [mustMatchWhenDerived] flag, so the
    generated matcher has no check at all and returns [this.handlers[0]]. *)
Theorem C1_version_falls_back_to_default :
  exists c, new_Constrainer [] = Ok c /\
    mustMatchHandlerMatcher c = [] /\
    forall (H : Type) (h : H),
      run_mustMatchHandlerMatcher (mustMatchHandlerMatcher c)
        (Some [("version", JStr "1.x")]) [h] = Ok (RetHandler h).
Proof.
  eexists; split; [reflexivity|]. split; [reflexivity|].
  intros H h; reflexivity.
Qed.

(** C3 (code_bug).  A custom strategy named [toString] flagged
    [mustMatchWhenDerived]: for [derivedConstraints = {host: 'example.com'}],
    which has no [toString] entry, [typeof derivedConstraints.toString] is
    ["function"] (inherited from [Object.prototype]), so the matcher returns
    [null] instead of the default handler. *)
Definition toString_strategy : custom_strategy :=
  mkCustomStrategy (JStr "toString") (PFun (UserStore 0))
    (PFun (fun req _ => header req "x-to-string")) PAbsent (JBool true).

Theorem C3_host_only_excluded_by_inherited_key :
  exists c, new_Constrainer [("toString", toString_strategy)] = Ok c /\
    own "toString" [("host", JStr "example.com")] = None /\
    forall (H : Type) (h : H),
      run_mustMatchHandlerMatcher (mustMatchHandlerMatcher c)
        (Some [("host", JStr "example.com")]) [h] = Ok RetNull.
Proof.
  eexists; split; [reflexivity|]. split; [reflexivity|].
  intros H h; reflexivity.
Qed.

Definition empty_deriver : deriver_fn := fun _ _ => JStr "".

(** A custom strategy named [version//] whose [deriveConstraint] always
    returns the empty string. *)
Definition version_comment_strategy : custom_strategy :=
  mkCustomStrategy (JStr "version//") (PFun (UserStore 4)) (PFun empty_deriver)
    PAbsent JUndefined.

(** C2 (code_bug).  With [version_comment_strategy] as the only used strategy,
    no used strategy derives a value, yet the deriver returns an empty object
    on every request, not [null]: the generated line
    [value = this.availableStrategies.version//.deriveConstraint(req, ctx)]
    is read as [value = this.availableStrategies.version] (the rest is a
    comment), which is the built-in version strategy object, a truthy value;
    so [hasConstraint] is set, while [derivedConstraints.version// = value] is
    the no-op read [derivedConstraints.version]. *)
Theorem C2_comment_name_derives_empty_object :
  exists c c',
    new_Constrainer [("v", version_comment_strategy)] = Ok c /\
    addUsedStrategy c "version//" = (c', Ok tt) /\
    usedStrategies c' = ["version//"] /\
    (forall req ctx, exists s, own "version//" (availableStrategies c') = Some s /\
       truthy (deriveConstraint s req ctx) = false) /\
    forall req ctx, run_deriveConstraints (deriveConstraints c') req ctx = Ok (Some []).
Proof.
  do 2 eexists; split; [reflexivity|]. split; [reflexivity|]. split; [reflexivity|].
  split; [intros req ctx; eexists; split; reflexivity|].
  intros req ctx; reflexivity.
Qed.

(** C4 (code_bug).  [addUsedStrategy('region')] on a constrainer with only
    the built-in strategies does not fail with "No strategy registered" (the
    error [validateConstraints] and [newStoreForConstraint] give for that
    name): it pushes ['region'], and the rebuilt deriver throws a [TypeError]
    on [strategy.isCustom]; the old compiled functions stay installed, and
    adding the registered name [version] afterwards throws the same
    [TypeError]. *)
Theorem C4_unknown_name_is_a_type_error :
  exists c, new_Constrainer [] = Ok c /\
    avail_get (availableStrategies c) "region" = LMissing /\
    validateConstraints c [("region", JStr "eu")] = Error (UnknownStrategy "region") /\
    newStoreForConstraint c "region" = Error (UnknownStrategy "region") /\
    addUsedStrategy c "region"
      = (mkConstrainer default_strategies ["region"] None [] 2, Error TypeError) /\
    addUsedStrategy (fst (addUsedStrategy c "region")) "version"
      = (mkConstrainer default_strategies ["region"; "version"] None [] 3, Error TypeError).
Proof.
  eexists; split; [reflexivity|].
  repeat split; reflexivity.
Qed.

(** C5 (code_bug).  [validateConstraints({constructor: '1.0.0'})] succeeds on
    a constrainer with only the built-in strategies: [availableStrategies.constructor]
    is the inherited [Object] function, which is truthy and has no [validate],
    while an unregistered key such as [region] fails as intended. *)
Theorem C5_inherited_key_passes_validation :
  exists c, new_Constrainer [] = Ok c /\
    own "constructor" (availableStrategies c) = None /\
    validateConstraints c [("constructor", JStr "1.0.0")] = Ok tt /\
    validateConstraints c [("region", JStr "us-east")]
      = Error (UnknownStrategy "region").
Proof.
  eexists; split; [reflexivity|]. repeat split; reflexivity.
Qed.

(** A custom strategy that supplies all three required members, flagged
    [mustMatchWhenDerived], whose name starts with a digit. *)
Definition two_factor_strategy : custom_strategy :=
  mkCustomStrategy (JStr "2fa") (PFun (UserStore 1))
    (PFun (fun req _ => header req "x-2fa")) PAbsent (JBool true).

(** C6 (code_bug).  Construction with [two_factor_strategy] passes the
    three checks, then fails: the generated matcher contains
    [typeof derivedConstraints.2fa], which does not parse. *)
Theorem C6_digit_name_breaks_construction :
  (exists s, check_custom_strategy two_factor_strategy = Ok s) /\
  new_Constrainer [("twoFactor", two_factor_strategy)] = Error SyntaxError.
Proof.
  split; [eexists; reflexivity | reflexivity].
Qed.

(** C7.  No operation removes or reorders a used name; adding a name that is
    already used leaves the whole object unchanged (no [compileFunctions]
    call), while the first addition of a name appends it and calls
    [compileFunctions] once. *)
Theorem C7_usedStrategies_append_only :
  (forall c ops, exists l, usedStrategies (run_ops c ops) = usedStrategies c ++ l) /\
  (forall c k, In k (usedStrategies c) -> addUsedStrategy c k = (c, Ok tt)) /\
  (forall c k, ~ In k (usedStrategies c) ->
     usedStrategies (fst (addUsedStrategy c k)) = usedStrategies c ++ [k] /\
     compilations (fst (addUsedStrategy c k)) = S (compilations c)).
Proof.
  split; [|split].
  - intros c ops; revert c; induction ops as [|o ops IH]; intro c; simpl.
    + exists []; rewrite app_nil_r; reflexivity.
    + destruct (step_appends c o) as [l1 H1].
      destruct (IH (step c o)) as [l2 H2].
      exists (l1 ++ l2); rewrite H2, H1, app_assoc; reflexivity.
  - exact addUsedStrategy_present.
  - intros c k Hnot; rewrite (addUsedStrategy_absent _ _ Hnot).
    destruct (compileFunctions_fields (set_usedStrategies c (usedStrategies c ++ [k])))
      as (_ & Hu & Hn).
    rewrite Hu, Hn; split; reflexivity.
Qed.

(** C8.  The header reads spliced in for the built-in strategies give what
    their own [deriveConstraint] returns, so, when every used name is a plain
    identifier, the compiled deriver computes the derivation that calls every
    used strategy's [deriveConstraint] in order. *)
Theorem C8_inlined_headers_match_strategies customs c used p req ctx :
  new_Constrainer customs = Ok c ->
  NoDup used ->
  _buildDeriveConstraints (availableStrategies c) used = Ok p ->
  (forall nm, line_value (LInline SrcAcceptVersion nm) req ctx
              = deriveConstraint acceptVersionStrategy req ctx) /\
  (forall nm, line_value (LInline SrcHost nm) req ctx
              = deriveConstraint acceptHostStrategy req ctx) /\
  (Forall plain_name used ->
   run_deriveConstraints p req ctx = Ok (derive_spec (availableStrategies c) used req ctx)).
Proof.
  intros Hc Hnd Hb.
  pose proof (new_Constrainer_avail_ok _ _ Hc) as Hok.
  split; [intros; reflexivity|]. split; [intros; reflexivity|].
  intro Hp; exact (run_build_spec _ _ _ req ctx Hok Hnd Hp Hb).
Qed.

Definition ab_deriver : deriver_fn := fun req _ => header req "x-ab".

(** A custom strategy named [a.b]. *)
Definition dotted_strategy : custom_strategy :=
  mkCustomStrategy (JStr "a.b") (PFun (UserStore 6)) (PFun ab_deriver) PAbsent JUndefined.

(** C9 (code_bug).  After [addUsedStrategy('version')] the deriver gives
    [{version: '1.2.0'}] for [req_v]; after [addUsedStrategy('a.b')] the
    rebuilt deriver throws a [TypeError] on every request, so the entry of
    the previously used [version] is no longer produced: the generated line
    [value = this.availableStrategies.a.b.deriveConstraint(req, ctx)] reads
    the property [b] of [this.availableStrategies.a], which is [undefined]. *)
Theorem C9_dotted_name_drops_previous_entries :
  exists c c1 c2,
    new_Constrainer [("ab", dotted_strategy)] = Ok c /\
    addUsedStrategy c "version" = (c1, Ok tt) /\
    run_deriveConstraints (deriveConstraints c1) req_v JNull
      = Ok (Some [("version", JStr "1.2.0")]) /\
    addUsedStrategy c1 "a.b" = (c2, Ok tt) /\
    usedStrategies c2 = ["version"; "a.b"] /\
    forall req ctx, run_deriveConstraints (deriveConstraints c2) req ctx = Error TypeError.
Proof.
  do 3 eexists; split; [reflexivity|]. split; [reflexivity|]. split; [reflexivity|].
  split; [reflexivity|]. split; [reflexivity|].
  intros req ctx; simpl.
  destruct (truthy (header req "accept-version")); reflexivity.
Qed.

(** A custom strategy named [host//] whose [deriveConstraint] always returns
    [0]. *)
Definition host_comment_strategy : custom_strategy :=
  mkCustomStrategy (JStr "host//") (PFun (UserStore 5))
    (PFun (fun _ _ => JNum 0)) PAbsent JUndefined.

(** C10 (code_bug).  With [host_comment_strategy] as the only used strategy,
    whose value [0] is falsy, the deriver still sets [hasConstraint] and
    returns an empty object instead of [null] on every request: the
    generated line reads as [value = this.availableStrategies.host], the
    built-in host strategy object. *)
Theorem C10_falsy_value_counts_as_constraint :
  exists c c',
    new_Constrainer [("h", host_comment_strategy)] = Ok c /\
    addUsedStrategy c "host//" = (c', Ok tt) /\
    usedStrategies c' = ["host//"] /\
    (forall req ctx, exists s, own "host//" (availableStrategies c') = Some s /\
       deriveConstraint s req ctx = JNum 0) /\
    forall req ctx, run_deriveConstraints (deriveConstraints c') req ctx = Ok (Some []).
Proof.
  do 2 eexists; split; [reflexivity|]. split; [reflexivity|]. split; [reflexivity|].
  split; [intros req ctx; eexists; split; reflexivity|].
  intros req ctx; reflexivity.
Qed.

(** ** Witnesses: the claims' hypotheses hold on concrete inputs *)

Definition c_version : constrainer :=
  mkConstrainer default_strategies ["version"] p_version [] 2.

Lemma C7_witness :
  In "version" (usedStrategies c_version) /\
  addUsedStrategy c_version "version" = (c_version, Ok tt) /\
  ~ In "host" (usedStrategies c_version) /\
  usedStrategies (fst (addUsedStrategy c_version "host")) = ["version"; "host"].
Proof.
  assert (Hin : In "version" (usedStrategies c_version)) by (left; reflexivity).
  assert (Hnot : ~ In "host" (usedStrategies c_version)).
  { simpl; intros [H|[]]; discriminate. }
  split; [exact Hin|]. split; [exact (proj1 (proj2 C7_usedStrategies_append_only) _ _ Hin)|].
  split; [exact Hnot|].
  exact (proj1 (proj2 (proj2 C7_usedStrategies_append_only) _ _ Hnot)).
Defined.

Lemma C8_witness :
  new_Constrainer [] = Ok c_default /\ NoDup ["version"; "host"] /\
  _buildDeriveConstraints default_strategies ["version"; "host"] = Ok p_version_host /\
  Forall plain_name ["version"; "host"] /\
  run_deriveConstraints p_version_host req_v JNull
  = Ok (derive_spec default_strategies ["version"; "host"] req_v JNull).
Proof.
  assert (Hnd : NoDup ["version"; "host"]) by nodup_strings.
  assert (Hp : Forall plain_name ["version"; "host"])
    by (constructor; [reflexivity|constructor; [reflexivity|constructor]]).
  split; [reflexivity|]. split; [exact Hnd|]. split; [reflexivity|]. split; [exact Hp|].
  exact (proj2 (proj2 (C8_inlined_headers_match_strategies [] c_default _ _ req_v JNull
                          eq_refl Hnd eq_refl)) Hp).
Defined.

(** ** Further properties of the registry and the compiled functions *)

(** X4.  In every state a [Constrainer] can reach (construction followed by
    any operations), every strategy is stored under its own name, the
    registry has no duplicate key, [usedStrategies] has no duplicate, and the
    installed matcher is the one built from the registry. *)
Theorem X4_reachable_invariants c :
  reachable c ->
  avail_ok (availableStrategies c) /\
  NoDup (map fst (availableStrategies c)) /\
  NoDup (usedStrategies c) /\
  _buildMustMatchHandlerMatcher (availableStrategies c) = Ok (mustMatchHandlerMatcher c).
Proof. exact (reachable_invariants c). Qed.

(** X7.  Once [usedStrategies] holds a name that is not registered (and not
    a member of [Object.prototype]), every later [addUsedStrategy] of a new
    name throws a [TypeError]: the name is still appended, and the installed
    deriver and matcher stay as they were. *)
Theorem X7_unregistered_name_blocks_later_additions c bad k :
  In bad (usedStrategies c) ->
  avail_get (availableStrategies c) bad = LMissing ->
  ~ In k (usedStrategies c) ->
  snd (addUsedStrategy c k) = Error TypeError /\
  usedStrategies (fst (addUsedStrategy c k)) = usedStrategies c ++ [k] /\
  deriveConstraints (fst (addUsedStrategy c k)) = deriveConstraints c /\
  mustMatchHandlerMatcher (fst (addUsedStrategy c k)) = mustMatchHandlerMatcher c.
Proof.
  intros Hbad Hm Hnot; rewrite (addUsedStrategy_absent _ _ Hnot).
  unfold compileFunctions, _buildDeriveConstraints; simpl.
  destruct (usedStrategies c ++ [k]) eqn:Hu;
    [destruct (usedStrategies c); discriminate|].
  rewrite <- Hu, (derive_lines_missing _ _ bad).
  - simpl; auto.
  - apply in_or_app; left; exact Hbad.
  - exact Hm.
Qed.

(** X10.  On a reachable state, if a used custom strategy's name is an
    identifier [p] followed by [//] and the rest of the line, and [p] names a
    registered strategy or a member of [Object.prototype], then the deriver
    built from the registry never returns [null]: the line for that name
    reads [this.availableStrategies.p], a truthy object, whatever the
    strategy itself would derive. *)
Theorem X10_comment_name_never_null c k s p d req ctx :
  reachable c ->
  In k (usedStrategies c) ->
  own k (availableStrategies c) = Some s ->
  shape_of_name k = ShComment p ->
  avail_get (availableStrategies c) p <> LMissing ->
  _buildDeriveConstraints (availableStrategies c) (usedStrategies c) = Ok d ->
  run_deriveConstraints d req ctx <> Ok None.
Proof.
  intros Hr Hin Hown Hsh Hp Hb.
  assert (Hnp : ~ plain_name k) by (unfold plain_name; rewrite Hsh; discriminate).
  destruct (reachable_custom_line _ _ _ Hr Hown Hnp) as [Hl Hname].
  assert (Hne : usedStrategies c <> []) by (intro H; rewrite H in Hin; destruct Hin).
  destruct (build_ok _ _ _ Hne Hb) as (ls & Hls & _ & ->).
  destruct (derive_lines_In _ _ _ _ Hls Hin) as (x & Hx & Hinx).
  rewrite Hl in Hx; injection Hx as Hx.
  unfold custom_line in Hx; rewrite Hname, Hsh in Hx; subst x.
  intro Hrun; apply run_deriveConstraints_ok in Hrun as (dc & b & Hrun & Hnone).
  assert (Ht : truthy (line_value (LRead (read_value (availableStrategies c) p)) req ctx)
               = true).
  { unfold read_value; simpl.
    destruct (avail_get (availableStrategies c) p);
      [reflexivity | destruct (String.eqb p "__proto__"); reflexivity | contradiction]. }
  assert (Hb' : b = true).
  { refine (run_lines_has _ _ _ _ _ _ _ (or_intror _) Hrun).
    exists (LRead (read_value (availableStrategies c) p)).
    split; [exact (in_map snd _ _ Hinx) | exact Ht]. }
  subst b; discriminate.
Qed.

(** X11.  On a reachable state, if a used strategy's name is a dotted path
    [h.rest] whose head [h] is neither registered nor a member of
    [Object.prototype], then the deriver built from the registry never
    returns, on any request: the line for that name reads a property of
    [this.availableStrategies.h], which is [undefined]. *)
Theorem X11_dotted_name_never_returns c k s h d req ctx r :
  reachable c ->
  In k (usedStrategies c) ->
  own k (availableStrategies c) = Some s ->
  shape_of_name k = ShPath h ->
  avail_get (availableStrategies c) h = LMissing ->
  _buildDeriveConstraints (availableStrategies c) (usedStrategies c) = Ok d ->
  run_deriveConstraints d req ctx <> Ok r.
Proof.
  intros Hr Hin Hown Hsh Hh Hb.
  assert (Hnp : ~ plain_name k) by (unfold plain_name; rewrite Hsh; discriminate).
  destruct (reachable_custom_line _ _ _ Hr Hown Hnp) as [Hl _].
  assert (Hne : usedStrategies c <> []) by (intro H; rewrite H in Hin; destruct Hin).
  destruct (build_ok _ _ _ Hne Hb) as (ls & Hls & _ & ->).
  destruct (derive_lines_In _ _ _ _ Hls Hin) as (x & Hx & Hinx).
  rewrite Hl in Hx; injection Hx as Hx.
  unfold custom_line in Hx; rewrite Hsh, Hh in Hx; subst x.
  intro Hrun; apply run_deriveConstraints_ok in Hrun as (dc & b & Hrun & _).
  exact (run_lines_throw _ _ _ _ _ _ (in_map snd _ _ Hinx) Hrun).
Qed.

(** ** Instances *)

Definition geo_deriver : deriver_fn := fun req _ => header req "x-geo".

Definition geo_validate : validator_fn := fun v =>
  match v with
  | JStr _ => Ok tt
  | _ => Error (ValidationError "geo must be a string")
  end.

Definition geo_custom : custom_strategy :=
  mkCustomStrategy (JStr "geo") (PFun (UserStore 3)) (PFun geo_deriver)
    (PFun geo_validate) (JBool true).

Definition geo_strategy : strategy :=
  {| name := "geo"; storage := UserStore 3; deriveConstraint := geo_deriver;
     validate := PFun geo_validate; mustMatchWhenDerived := JBool true;
     isCustom := true |}.

Definition geo_customs : list (string * custom_strategy) := [("geo", geo_custom)].

Definition c_geo : constrainer :=
  mkConstrainer (default_strategies ++ [("geo", geo_strategy)]) [] None ["geo"] 1.

(** [c_geo] after [addUsedStrategy("geo")], and after [addUsedStrategy("zone")]
    (an unregistered name). *)
Definition c_geo_used : constrainer := step c_geo (OpAddUsedStrategy "geo").

Definition c_geo_zone : constrainer := step c_geo (OpAddUsedStrategy "zone").

Lemma c_geo_new : new_Constrainer geo_customs = Ok c_geo.
Proof. reflexivity. Qed.

Lemma c_geo_reachable : reachable c_geo.
Proof. exact (reach_new _ _ c_geo_new). Qed.

Lemma X4_witness :
  reachable c_geo_used /\
  avail_ok (availableStrategies c_geo_used) /\
  NoDup (map fst (availableStrategies c_geo_used)) /\
  NoDup (usedStrategies c_geo_used) /\
  _buildMustMatchHandlerMatcher (availableStrategies c_geo_used)
  = Ok (mustMatchHandlerMatcher c_geo_used).
Proof.
  assert (Hr : reachable c_geo_used) by exact (reach_step _ _ c_geo_reachable).
  split; [exact Hr|exact (X4_reachable_invariants _ Hr)].
Defined.

Lemma X7_witness :
  In "zone" (usedStrategies c_geo_zone) /\
  avail_get (availableStrategies c_geo_zone) "zone" = LMissing /\
  ~ In "geo" (usedStrategies c_geo_zone) /\
  snd (addUsedStrategy c_geo_zone "geo") = Error TypeError /\
  usedStrategies (fst (addUsedStrategy c_geo_zone "geo")) = ["zone"; "geo"] /\
  deriveConstraints (fst (addUsedStrategy c_geo_zone "geo")) = deriveConstraints c_geo_zone.
Proof.
  assert (Hin : In "zone" (usedStrategies c_geo_zone)) by (left; reflexivity).
  assert (Hm : avail_get (availableStrategies c_geo_zone) "zone" = LMissing)
    by reflexivity.
  assert (Hnot : ~ In "geo" (usedStrategies c_geo_zone))
    by (simpl; intros [H|[]]; discriminate).
  destruct (X7_unregistered_name_blocks_later_additions _ _ _ Hin Hm Hnot)
    as (He & Hu & Hd & _).
  split; [exact Hin|]. split; [exact Hm|]. split; [exact Hnot|].
  split; [exact He|]. split; [exact Hu|exact Hd].
Defined.

(** A constrainer holding [version_comment_strategy], and the same after
    [addUsedStrategy("version//")]. *)
Definition version_comment_registered : strategy :=
  {| name := "version//"; storage := UserStore 4; deriveConstraint := empty_deriver;
     validate := PAbsent; mustMatchWhenDerived := JUndefined; isCustom := true |}.

Definition c_vc : constrainer :=
  mkConstrainer (default_strategies ++ [("version//", version_comment_registered)])
    [] None [] 1.

Definition c_vc_used : constrainer := step c_vc (OpAddUsedStrategy "version//").

Lemma c_vc_new : new_Constrainer [("v", version_comment_strategy)] = Ok c_vc.
Proof. reflexivity. Qed.

Lemma X10_witness :
  reachable c_vc_used /\
  In "version//" (usedStrategies c_vc_used) /\
  own "version//" (availableStrategies c_vc_used) = Some version_comment_registered /\
  shape_of_name "version//" = ShComment "version" /\
  avail_get (availableStrategies c_vc_used) "version" <> LMissing /\
  _buildDeriveConstraints (availableStrategies c_vc_used) (usedStrategies c_vc_used)
    = Ok (deriveConstraints c_vc_used) /\
  run_deriveConstraints (deriveConstraints c_vc_used) req_v JNull <> Ok None.
Proof.
  assert (Hr : reachable c_vc_used) by exact (reach_step _ _ (reach_new _ _ c_vc_new)).
  assert (Hin : In "version//" (usedStrategies c_vc_used)) by (left; reflexivity).
  assert (Hown : own "version//" (availableStrategies c_vc_used)
                 = Some version_comment_registered) by reflexivity.
  assert (Hsh : shape_of_name "version//" = ShComment "version") by reflexivity.
  assert (Hp : avail_get (availableStrategies c_vc_used) "version" <> LMissing)
    by (vm_compute; discriminate).
  assert (Hb : _buildDeriveConstraints (availableStrategies c_vc_used)
                 (usedStrategies c_vc_used) = Ok (deriveConstraints c_vc_used))
    by reflexivity.
  split; [exact Hr|]. split; [exact Hin|]. split; [exact Hown|]. split; [exact Hsh|].
  split; [exact Hp|]. split; [exact Hb|].
  exact (X10_comment_name_never_null _ _ _ _ _ req_v JNull Hr Hin Hown Hsh Hp Hb).
Defined.

(** A constrainer holding [dotted_strategy], and the same after
    [addUsedStrategy("a.b")]. *)
Definition dotted_registered : strategy :=
  {| name := "a.b"; storage := UserStore 6; deriveConstraint := ab_deriver;
     validate := PAbsent; mustMatchWhenDerived := JUndefined; isCustom := true |}.

Definition c_ab : constrainer :=
  mkConstrainer (default_strategies ++ [("a.b", dotted_registered)]) [] None [] 1.

Definition c_ab_used : constrainer := step c_ab (OpAddUsedStrategy "a.b").

Lemma c_ab_new : new_Constrainer [("ab", dotted_strategy)] = Ok c_ab.
Proof. reflexivity. Qed.

Lemma X11_witness :
  reachable c_ab_used /\
  In "a.b" (usedStrategies c_ab_used) /\
  own "a.b" (availableStrategies c_ab_used) = Some dotted_registered /\
  shape_of_name "a.b" = ShPath "a" /\
  avail_get (availableStrategies c_ab_used) "a" = LMissing /\
  _buildDeriveConstraints (availableStrategies c_ab_used) (usedStrategies c_ab_used)
    = Ok (deriveConstraints c_ab_used) /\
  run_deriveConstraints (deriveConstraints c_ab_used) req_v JNull <> Ok None.
Proof.
  assert (Hr : reachable c_ab_used) by exact (reach_step _ _ (reach_new _ _ c_ab_new)).
  assert (Hin : In "a.b" (usedStrategies c_ab_used)) by (left; reflexivity).
  assert (Hown : own "a.b" (availableStrategies c_ab_used) = Some dotted_registered)
    by reflexivity.
  assert (Hsh : shape_of_name "a.b" = ShPath "a") by reflexivity.
  assert (Hh : avail_get (availableStrategies c_ab_used) "a" = LMissing) by reflexivity.
  assert (Hb : _buildDeriveConstraints (availableStrategies c_ab_used)
                 (usedStrategies c_ab_used) = Ok (deriveConstraints c_ab_used))
    by reflexivity.
  split; [exact Hr|]. split; [exact Hin|]. split; [exact Hown|]. split; [exact Hsh|].
  split; [exact Hh|]. split; [exact Hb|].
  exact (X11_dotted_name_never_returns _ _ _ _ _ req_v JNull None Hr Hin Hown Hsh Hh Hb).
Defined.
